(** * Sign-in store and device-tree type guard of the web UI

    A shallow embedding of

    - [SigninStore]: the component store behind the sign-in page.  Its
      state record, its updaters and selectors are pure functions; its two
      effects ([init] and [handleSuccessfulLogin]) are reactive pipelines
      that suspend on RPC round trips, modelled as a deterministic
      transition function over the responses delivered by the channel;
    - [isVdevGroup]: the type guard of the nested device tree.

    Every call on a collaborator (websocket channel, snack bar, router,
    error dialog) is recorded in a chronological log, which is what a test
    with mocked collaborators observes. *)

From stdpp Require Import base option list strings gmap.
From Stdlib Require Import ZArith Lia.

Local Open Scope string_scope.
Local Open Scope list_scope.
Set Warnings "-register-all".

(** ** Enumerations and opaque payloads *)

(** Modelled from the spec: the enum [FailoverStatus] is imported from
    app/enums/failover-status.enum, which is not part of the sources at
    hand.  The members the spec names are constructors; every further
    member is [OtherStatus] with its wire name. *)
Inductive FailoverStatus : Type :=
  | Single
  | Master
  | Backup
  | Error
  | OtherStatus (name : string).

#[global] Instance FailoverStatus_eq_dec : EqDecision FailoverStatus.
Proof. solve_decision. Defined.

(** Modelled from the spec: [FailoverDisabledReason] (enum of reason codes,
    app/enums/failover-disabled-reason.enum) is carried by its code. *)
Inductive FailoverDisabledReason : Type :=
  | ReasonCode (code : string).

#[global] Instance FailoverDisabledReason_eq_dec : EqDecision FailoverDisabledReason.
Proof. solve_decision. Defined.

(** The error object the channel raises; opaque to the store. *)
Inductive WebsocketError : Type :=
  | WsError (reason : string).

(** ** Store state

    [failover] starts as [null]; the object it later holds is built by
    object spreads, so each of its properties may be missing. *)
Record FailoverInfo : Type := mkFailover {
  status : option FailoverStatus;
  ips : option (list string);
  disabledReasons : option (list FailoverDisabledReason)
}.

Record SigninState : Type := mkState {
  isLoading : bool;
  hasRootPassword : bool;
  failover : option FailoverInfo
}.

Definition initialState : SigninState :=
  {| isLoading := false; hasRootPassword := true; failover := None |}.

(** [{}] *)
Definition emptyObject : FailoverInfo :=
  {| status := None; ips := None; disabledReasons := None |}.

(** [...x] inside an object literal: spreading [null] adds no property. *)
Definition spread (x : option FailoverInfo) : FailoverInfo :=
  match x with
  | Some o => o
  | None => emptyObject
  end.

(** [x || {}]: an object is truthy, [null] is not. *)
Definition orEmpty (x : option FailoverInfo) : option FailoverInfo :=
  match x with
  | Some o => Some o
  | None => Some emptyObject
  end.

(** Optional chaining, [state.failover?.p]. *)
Definition failoverStatus (state : SigninState) : option FailoverStatus :=
  match failover state with Some o => status o | None => None end.

Definition failoverIps (state : SigninState) : option (list string) :=
  match failover state with Some o => ips o | None => None end.

Definition failoverDisabledReasons (state : SigninState)
  : option (list FailoverDisabledReason) :=
  match failover state with Some o => disabledReasons o | None => None end.

(** ** Updaters *)

Definition setLoadingState (loading : bool) (state : SigninState) : SigninState :=
  {| isLoading := loading;
     hasRootPassword := hasRootPassword state;
     failover := failover state |}.

(** [patchState({ hasRootPassword })] *)
Definition patchHasRootPassword (value : bool) (state : SigninState) : SigninState :=
  {| isLoading := isLoading state;
     hasRootPassword := value;
     failover := failover state |}.

Definition setFailoverDisabledReasons (reasons : list FailoverDisabledReason)
    (state : SigninState) : SigninState :=
  {| isLoading := isLoading state;
     hasRootPassword := hasRootPassword state;
     failover :=
       let o := spread (failover state) in
       Some {| status := status o;
               ips := ips o;
               disabledReasons := Some reasons |} |}.

Definition setFailoverStatus (newStatus : FailoverStatus)
    (state : SigninState) : SigninState :=
  {| isLoading := isLoading state;
     hasRootPassword := hasRootPassword state;
     failover :=
       let o := spread (orEmpty (failover state)) in
       Some {| status := Some newStatus;
               ips := ips o;
               disabledReasons := disabledReasons o |} |}.

Definition setFailoverIps (addresses : list string)
    (state : SigninState) : SigninState :=
  {| isLoading := isLoading state;
     hasRootPassword := hasRootPassword state;
     failover :=
       let o := spread (failover state) in
       Some {| status := status o;
               ips := Some addresses;
               disabledReasons := disabledReasons o |} |}.

(** ** Selectors *)

(** [Array.prototype.includes] on a list of enum members; [undefined] is
    never a member. *)
Definition includes (members : list FailoverStatus) (x : option FailoverStatus) : bool :=
  match x with
  | Some s => bool_decide (s ∈ members)
  | None => false
  end.

Definition failoverAllowsLogin (state : SigninState) : bool :=
  includes [Single; Master] (failoverStatus state).

(** The projection mapped over [combineLatest([isConnected$, ...])]. *)
Definition canLogin (isConnected : bool) (state : SigninState) : bool :=
  isConnected && failoverAllowsLogin state.

Definition hasFailover (state : SigninState) : bool :=
  match failover state with
  | Some o => bool_decide (status o ≠ Some Single)
  | None => false
  end.

(** ** The nested device tree guard *)

(** Run-time values of the tree nodes: plain data objects are property
    bags. *)
Inductive JsValue : Type :=
  | JsString (s : string)
  | JsArray (items : list JsValue)
  | JsObject (props : gmap string JsValue).

Abbreviation JsProps := (gmap string JsValue).

Record VDevGroup : Type := mkVDevGroup {
  group : string;
  guid : string;
  children : list JsProps
}.

(** The object literal of a [VDevGroup]. *)
Definition VDevGroup_object (g : VDevGroup) : JsProps :=
  <["group" := JsString (group g)]>
  (<["guid" := JsString (guid g)]>
  (<["children" := JsArray (JsObject <$> children g)]> ∅)).

(** ['p' in node] for a plain data object. *)
Definition hasProperty (p : string) (node : JsProps) : bool :=
  bool_decide (p ∈ dom node).

Definition isVdevGroup (node : JsProps) : bool :=
  hasProperty "group" node.

(** ** Collaborators

    Calls made on the collaborators, in the order the store makes them. *)
Inductive Effect : Type :=
  | WsCall (method : string) (params : list Z)
  | WsLoginToken (token : option string)
  | WsSub (topic subscriptionId : string)
  | WsUnsub (topic subscriptionId : string)
  | SnackbarOpen (message action : string) (duration : Z) (verticalPosition : string)
  | SnackbarDismiss
  | NavigateByUrl (url : string)
  | HandleWsError (error : WebsocketError).

#[global] Instance WebsocketError_eq_dec : EqDecision WebsocketError.
Proof. solve_decision. Defined.

#[global] Instance Effect_eq_dec : EqDecision Effect.
Proof. solve_decision. Defined.

(** What the channel answers to a request. *)
Inductive Response (A : Type) : Type :=
  | Ok (value : A)
  | Failed (error : WebsocketError).
Arguments Ok {A} value.
Arguments Failed {A} error.

(** ** In-flight pipelines

    [forkJoin([ips, reasons])] inside [loadAdditionalFailoverInfo] holds
    back the values that have arrived until both have. *)
Inductive FailoverBranch : Type :=
  | StatusPending
  | InfoPending (arrivedIps : option (list string))
                (arrivedReasons : option (list FailoverDisabledReason))
  | BranchDone.

(** The inner pipeline of [init]: idle, waiting in the outer [forkJoin],
    or waiting for the answer of [ws.loginToken]. *)
Inductive InitEffect : Type :=
  | InitIdle
  | InitJoin (rootPasswordDone : bool) (branch : FailoverBranch)
  | InitLoginToken.

(** The pipeline of [handleSuccessfulLogin].  Its [tapResponse] sits on the
    outer stream, so an error that reaches it completes the whole effect:
    later triggers find no subscriber ([LoginDead]). *)
Inductive LoginEffect : Type :=
  | LoginIdle
  | LoginGenerating
  | LoginDead.

Record World : Type := mkWorld {
  state : SigninState;
  ws_token : option string;
  ws_redirectUrl : option string;
  ws_subscriptions : gset (string * string);
  sessionStorage_currentUrl : option string;
  initEffect : InitEffect;
  loginEffect : LoginEffect;
  log : list Effect
}.

Definition update (f : SigninState -> SigninState) (w : World) : World :=
  mkWorld (f (state w)) (ws_token w) (ws_redirectUrl w) (ws_subscriptions w)
          (sessionStorage_currentUrl w) (initEffect w) (loginEffect w) (log w).

Definition set_token (t : option string) (w : World) : World :=
  mkWorld (state w) t (ws_redirectUrl w) (ws_subscriptions w)
          (sessionStorage_currentUrl w) (initEffect w) (loginEffect w) (log w).

Definition set_subscriptions (subs : gset (string * string)) (w : World) : World :=
  mkWorld (state w) (ws_token w) (ws_redirectUrl w) subs
          (sessionStorage_currentUrl w) (initEffect w) (loginEffect w) (log w).

Definition set_initEffect (c : InitEffect) (w : World) : World :=
  mkWorld (state w) (ws_token w) (ws_redirectUrl w) (ws_subscriptions w)
          (sessionStorage_currentUrl w) c (loginEffect w) (log w).

Definition set_loginEffect (c : LoginEffect) (w : World) : World :=
  mkWorld (state w) (ws_token w) (ws_redirectUrl w) (ws_subscriptions w)
          (sessionStorage_currentUrl w) (initEffect w) c (log w).

Definition emit (e : Effect) (w : World) : World :=
  mkWorld (state w) (ws_token w) (ws_redirectUrl w) (ws_subscriptions w)
          (sessionStorage_currentUrl w) (initEffect w) (loginEffect w) (log w ++ [e]).

(** Truthiness of a [string | null]. *)
Definition truthy (x : option string) : bool :=
  match x with
  | Some s => negb (String.eqb s "")
  | None => false
  end.

(** [ws.call(method, params)]: the request goes out. *)
Definition ws_call (method : string) (params : list Z) (w : World) : World :=
  emit (WsCall method params) w.

(** Modelled from the spec: [WebSocketService.sub] and [unsub] are not part
    of the sources at hand; per the spec they manage server-push
    subscriptions keyed by topic and caller-chosen identifier. *)
Definition ws_sub (topic subscriptionId : string) (w : World) : World :=
  set_subscriptions ({[ (topic, subscriptionId) ]} ∪ ws_subscriptions w)
    (emit (WsSub topic subscriptionId) w).

Definition ws_unsub (topic subscriptionId : string) (w : World) : World :=
  set_subscriptions (ws_subscriptions w ∖ {[ (topic, subscriptionId) ]})
    (emit (WsUnsub topic subscriptionId) w).

Definition subscribed (topic subscriptionId : string) (w : World) : bool :=
  bool_decide ((topic, subscriptionId) ∈ ws_subscriptions w).

Definition tokenLifetime : Z := 300.

(** ** SigninStore *)

(** What reaches the store from outside: a trigger of one of its two
    effects, the answer to a request, or a push on a subscription. *)
Inductive Event : Type :=
  | TriggerInit
  | TriggerHandleSuccessfulLogin
  | HasRootPasswordResponse (r : Response bool)
  | FailoverStatusResponse (r : Response FailoverStatus)
  | GetIpsResponse (r : Response (list string))
  | DisabledReasonsResponse (r : Response (list FailoverDisabledReason))
  | LoginTokenResponse (r : Response bool)
  | GenerateTokenResponse (r : Response (option string))
  | FailoverStatusPush (s : FailoverStatus)
  | DisabledReasonsPush (reasons : list FailoverDisabledReason).

Section SigninStore.

(** [translate.instant], and the two identifiers drawn once by
    [UUID.UUID()] when the store is constructed. *)
Variable instant : string -> string.
Variable statusSubscriptionId : string.
Variable disabledReasonsSubscriptionId : string.

Definition showSnackbar (message : string) (w : World) : World :=
  emit (SnackbarOpen message (instant "Close") 4000 "bottom") w.

Definition getRedirectUrl (w : World) : string :=
  if truthy (ws_redirectUrl w) then default "" (ws_redirectUrl w)
  else
    let currentUrl := sessionStorage_currentUrl w in
    if truthy currentUrl then default "" currentUrl
    else "/dashboard".

(** [handleSuccessfulLogin()]: the trigger runs the first [tap] and
    subscribes to [generateToken()]; [switchMap] drops a request that is
    still in flight. *)
Definition handleSuccessfulLogin (w : World) : World :=
  match loginEffect w with
  | LoginDead => w
  | _ =>
    let w := update (setLoadingState true) w in
    let w := emit SnackbarDismiss w in
    let w := ws_call "auth.generate_token" [tokenLifetime] w in
    set_loginEffect LoginGenerating w
  end.

(** The [tap] of [generateToken]. *)
Definition generateToken_tap (token : option string) (w : World) : World :=
  if negb (truthy token) then
    showSnackbar (instant "Error generating token, please try again.") w
  else set_token token w.

(** The two callbacks of the [tapResponse] of [handleSuccessfulLogin]. *)
Definition handleSuccessfulLogin_next (w : World) : World :=
  let w := ws_unsub "failover.status" statusSubscriptionId w in
  let w := ws_unsub "failover.disabled_reasons" disabledReasonsSubscriptionId w in
  let w := emit (NavigateByUrl (getRedirectUrl w)) w in
  set_loginEffect LoginIdle w.

Definition handleSuccessfulLogin_error (e : WebsocketError) (w : World) : World :=
  let w := emit (HandleWsError e) w in
  set_loginEffect LoginDead w.

(** The [tap] of [loginWithToken]. *)
Definition loginWithToken_tap (wasLoggedIn : bool) (w : World) : World :=
  if negb wasLoggedIn then
    let w := showSnackbar (instant "Token expired, please log back in.") w in
    let w := set_token None w in
    update (setLoadingState false) w
  else handleSuccessfulLogin w.

(** The two callbacks of the [tapResponse] of [init]; it sits inside the
    [switchMap], so [init] stays usable after an error. *)
Definition init_next (w : World) : World :=
  set_initEffect InitIdle (update (setLoadingState false) w).

Definition init_error (e : WebsocketError) (w : World) : World :=
  let w := update (setLoadingState false) w in
  let w := emit (HandleWsError e) w in
  set_initEffect InitIdle w.

(** The [switchMap] after the outer [forkJoin]. *)
Definition init_afterJoin (w : World) : World :=
  if negb (truthy (ws_token w)) then init_next w
  else set_initEffect InitLoginToken (emit (WsLoginToken (ws_token w)) w).

(** The outer [forkJoin] emits once both of its sources have completed. *)
Definition init_join (rootPasswordDone : bool) (branch : FailoverBranch)
    (w : World) : World :=
  match rootPasswordDone, branch with
  | true, BranchDone => init_afterJoin w
  | _, _ => set_initEffect (InitJoin rootPasswordDone branch) w
  end.

(** [init()]: the trigger sets the loading flag and subscribes to both
    sources of the [forkJoin], which sends both requests. *)
Definition init (w : World) : World :=
  let w := update (setLoadingState true) w in
  let w := ws_call "user.has_root_password" [] w in
  let w := ws_call "failover.status" [] w in
  set_initEffect (InitJoin false StatusPending) w.

Definition subscribeToFailoverUpdates (w : World) : World :=
  let w := ws_sub "failover.status" statusSubscriptionId w in
  ws_sub "failover.disabled.reasons" disabledReasonsSubscriptionId w.

(** [loadAdditionalFailoverInfo()]: both requests go out; the [tap] runs
    when both answers are in. *)
Definition loadAdditionalFailoverInfo (w : World) : World :=
  let w := ws_call "failover.get_ips" [] w in
  ws_call "failover.disabled.reasons" [] w.

Definition loadAdditionalFailoverInfo_tap (addresses : list string)
    (reasons : list FailoverDisabledReason) (w : World) : World :=
  let w := update (setFailoverDisabledReasons reasons) w in
  update (setFailoverIps addresses) w.

(** The inner [forkJoin] of [loadAdditionalFailoverInfo]. *)
Definition info_join (rootPasswordDone : bool)
    (arrivedIps : option (list string))
    (arrivedReasons : option (list FailoverDisabledReason)) (w : World) : World :=
  match arrivedIps, arrivedReasons with
  | Some addresses, Some reasons =>
      init_join rootPasswordDone BranchDone
        (loadAdditionalFailoverInfo_tap addresses reasons w)
  | _, _ =>
      set_initEffect (InitJoin rootPasswordDone (InfoPending arrivedIps arrivedReasons)) w
  end.

(** The [switchMap] of [loadFailoverStatus]. *)
Definition loadFailoverStatus_switchMap (rootPasswordDone : bool)
    (s : FailoverStatus) (w : World) : World :=
  let w := update (setFailoverStatus s) w in
  if bool_decide (s = Single) then init_join rootPasswordDone BranchDone w
  else
    let w := subscribeToFailoverUpdates w in
    let w := loadAdditionalFailoverInfo w in
    set_initEffect (InitJoin rootPasswordDone (InfoPending None None)) w.

(** One delivery from the channel (or one trigger from the page) and all
    the synchronous work it causes.  A delivery nobody waits for does
    nothing: its subscriber is gone. *)
Definition step (ev : Event) (w : World) : World :=
  match ev with
  | TriggerInit => init w
  | TriggerHandleSuccessfulLogin => handleSuccessfulLogin w
  | HasRootPasswordResponse r =>
      match initEffect w with
      | InitJoin false branch =>
          match r with
          | Ok value => init_join true branch (update (patchHasRootPassword value) w)
          | Failed e => init_error e w
          end
      | _ => w
      end
  | FailoverStatusResponse r =>
      match initEffect w with
      | InitJoin rootPasswordDone StatusPending =>
          match r with
          | Ok s => loadFailoverStatus_switchMap rootPasswordDone s w
          | Failed e => init_error e w
          end
      | _ => w
      end
  | GetIpsResponse r =>
      match initEffect w with
      | InitJoin rootPasswordDone (InfoPending None arrivedReasons) =>
          match r with
          | Ok addresses => info_join rootPasswordDone (Some addresses) arrivedReasons w
          | Failed e => init_error e w
          end
      | _ => w
      end
  | DisabledReasonsResponse r =>
      match initEffect w with
      | InitJoin rootPasswordDone (InfoPending arrivedIps None) =>
          match r with
          | Ok reasons => info_join rootPasswordDone arrivedIps (Some reasons) w
          | Failed e => init_error e w
          end
      | _ => w
      end
  | LoginTokenResponse r =>
      match initEffect w with
      | InitLoginToken =>
          match r with
          | Ok wasLoggedIn => init_next (loginWithToken_tap wasLoggedIn w)
          | Failed e => init_error e w
          end
      | _ => w
      end
  | GenerateTokenResponse r =>
      match loginEffect w with
      | LoginGenerating =>
          match r with
          | Ok token => handleSuccessfulLogin_next (generateToken_tap token w)
          | Failed e => handleSuccessfulLogin_error e w
          end
      | _ => w
      end
  | FailoverStatusPush s =>
      if subscribed "failover.status" statusSubscriptionId w
      then update (setFailoverStatus s) w else w
  | DisabledReasonsPush reasons =>
      if subscribed "failover.disabled.reasons" disabledReasonsSubscriptionId w
      then update (setFailoverDisabledReasons reasons) w else w
  end.

(** Deliveries in the order they arrive. *)
Fixpoint run (evs : list Event) (w : World) : World :=
  match evs with
  | [] => w
  | ev :: rest => run rest (step ev w)
  end.

End SigninStore.

(** A freshly constructed store next to a channel and a session storage. *)
Definition newWorld (token redirectUrl currentUrl : option string) : World :=
  {| state := initialState;
     ws_token := token;
     ws_redirectUrl := redirectUrl;
     ws_subscriptions := ∅;
     sessionStorage_currentUrl := currentUrl;
     initEffect := InitIdle;
     loginEffect := LoginIdle;
     log := [] |}.

(** ** Vocabulary of the properties *)

(** Deliveries that belong to a run of [init]: the answers to its requests
    and pushes on its subscriptions, no trigger from the page. *)
Definition bootstrapDelivery (ev : Event) : Prop :=
  match ev with
  | TriggerInit | TriggerHandleSuccessfulLogin | GenerateTokenResponse _ => False
  | _ => True
  end.

(** The channel answered without an error. *)
Definition succeeded (ev : Event) : Prop :=
  match ev with
  | HasRootPasswordResponse (Failed _)
  | FailoverStatusResponse (Failed _)
  | GetIpsResponse (Failed _)
  | DisabledReasonsResponse (Failed _)
  | LoginTokenResponse (Failed _)
  | GenerateTokenResponse (Failed _) => False
  | _ => True
  end.

(** A call that neither opens a push subscription nor asks for the failover
    details. *)
Definition noFailoverDetail (e : Effect) : Prop :=
  match e with
  | WsSub _ _ => False
  | WsCall method _ =>
      method <> "failover.get_ips" /\ method <> "failover.disabled.reasons"
  | _ => True
  end.

(** The failover branch of [init] is waiting for the failover details. *)
Definition awaitsFailoverInfo (w : World) : Prop :=
  match initEffect w with
  | InitJoin _ (InfoPending _ _) => True
  | _ => False
  end.

(** The state holds the answer [b] of [user.has_root_password] once the
    pipeline of [init] is past waiting for it. *)
Definition rootPasswordSettled (b : bool) (w : World) : Prop :=
  match initEffect w with
  | InitJoin false _ => True
  | _ => hasRootPassword (state w) = b
  end.

(** The orders in which the answers to the four requests of the bootstrap
    can arrive: the failover details are requested after the status has
    arrived; nothing else is ordered. *)
Definition bootstrapOrders (rp : Response bool) (rs : Response FailoverStatus)
    (ri : Response (list string)) (rr : Response (list FailoverDisabledReason))
  : list (list Event) :=
  let P := HasRootPasswordResponse rp in
  let S := FailoverStatusResponse rs in
  let I := GetIpsResponse ri in
  let R := DisabledReasonsResponse rr in
  [ [P; S; I; R]; [P; S; R; I];
    [S; P; I; R]; [S; P; R; I];
    [S; I; P; R]; [S; R; P; I];
    [S; I; R; P]; [S; R; I; P] ].

(** Counting calls of one kind in a log. *)
Definition isNavigate (e : Effect) : bool :=
  match e with NavigateByUrl _ => true | _ => false end.

Definition isGenerateToken (e : Effect) : bool :=
  match e with
  | WsCall method _ => String.eqb method "auth.generate_token"
  | _ => false
  end.

Definition isHandleWsError (e : Effect) : bool :=
  match e with HandleWsError _ => true | _ => false end.

Definition isUnsub (e : Effect) : bool :=
  match e with WsUnsub _ _ => true | _ => false end.

Definition count (p : Effect -> bool) (l : list Effect) : nat :=
  length (List.filter p l).

(** One if the pipeline of [init] is in flight, zero if it is idle. *)
Definition initActive (w : World) : nat :=
  match initEffect w with InitIdle => 0 | _ => 1 end.

(** One if [handleSuccessfulLogin] waits for its token, zero otherwise. *)
Definition loginPending (w : World) : nat :=
  match loginEffect w with LoginGenerating => 1 | _ => 0 end.

(** The calls the store is written to make. *)
Definition storeEffect (instant : string -> string)
    (statusSubscriptionId disabledReasonsSubscriptionId : string) (e : Effect) : Prop :=
  match e with
  | WsCall method params =>
      (method, params) ∈
        [("user.has_root_password", []); ("failover.status", []);
         ("failover.get_ips", []); ("failover.disabled.reasons", []);
         ("auth.generate_token", [300%Z])]
  | WsLoginToken token => truthy token = true
  | WsSub topic id =>
      (topic, id) ∈ [("failover.status", statusSubscriptionId);
                     ("failover.disabled.reasons", disabledReasonsSubscriptionId)]
  | WsUnsub topic id =>
      (topic, id) ∈ [("failover.status", statusSubscriptionId);
                     ("failover.disabled_reasons", disabledReasonsSubscriptionId)]
  | SnackbarOpen message action duration verticalPosition =>
      message ∈ [instant "Token expired, please log back in.";
                 instant "Error generating token, please try again."]
      /\ action = instant "Close" /\ duration = 4000%Z /\ verticalPosition = "bottom"
  | SnackbarDismiss => True
  | NavigateByUrl url => url <> ""
  | HandleWsError _ => True
  end.

(** An answer to one of the requests of [init] other than
    [failover.status]. *)
Definition answerBesidesStatus (ev : Event) : Prop :=
  match ev with
  | HasRootPasswordResponse _ | GetIpsResponse _
  | DisabledReasonsResponse _ | LoginTokenResponse _ => True
  | _ => False
  end.

(** A trigger of [handleSuccessfulLogin] or an answer to its request. *)
Definition loginEvent (ev : Event) : Prop :=
  match ev with
  | TriggerHandleSuccessfulLogin | GenerateTokenResponse _ => True
  | _ => False
  end.

(** ** A concrete store

    The translation service before any translation is loaded (it gives the
    key back), and two subscription identifiers. *)
Definition untranslated (key : string) : string := key.

Definition exampleStatusId : string := "3f2a9c1e-status".

Definition exampleReasonsId : string := "7b44d0aa-reasons".

(** The bootstrap has run on a single node with a cached token, and the
    store waits for the answer to the token login. *)
Definition awaitingTokenLogin : World :=
  run untranslated exampleStatusId exampleReasonsId
    [TriggerInit; HasRootPasswordResponse (Ok true); FailoverStatusResponse (Ok Single)]
    (newWorld (Some "cached-token") None (Some "/storage")).

(** The bootstrap has run on the master node of a pair: both push
    subscriptions are open. *)
Definition afterMasterBootstrap : World :=
  run untranslated exampleStatusId exampleReasonsId
    [TriggerInit; HasRootPasswordResponse (Ok true);
     FailoverStatusResponse (Ok Master);
     GetIpsResponse (Ok ["10.0.0.1"; "10.0.0.2"]);
     DisabledReasonsResponse (Ok [])]
    (newWorld None None None).

(** * Properties *)

(** ** Selectors *)

Lemma failoverAllowsLogin_spec (s : SigninState) :
  failoverAllowsLogin s = true <->
  failoverStatus s = Some Single \/ failoverStatus s = Some Master.
Proof.
  unfold failoverAllowsLogin, includes.
  destruct (failoverStatus s) as [st|].
  - rewrite bool_decide_eq_true, !elem_of_cons, elem_of_nil. split.
    + intros [->|[->|[]]]; auto.
    + intros [[= ->]|[= ->]]; auto.
  - split; [discriminate | intros [?|?]; discriminate].
Qed.

(** C1. [canLogin] is true exactly when the channel is connected and the
    failover status is Single or Master; hence it is true for a connected
    channel with status Master, and false with status Backup whatever the
    connection state. *)
Theorem canLogin_iff (isConnected : bool) (s : SigninState) :
  (canLogin isConnected s = true <->
     isConnected = true /\
     (failoverStatus s = Some Single \/ failoverStatus s = Some Master))
  /\ (failoverStatus s = Some Master -> canLogin true s = true)
  /\ (failoverStatus s = Some Backup -> canLogin isConnected s = false).
Proof.
  unfold canLogin. split; [|split].
  - rewrite andb_true_iff, failoverAllowsLogin_spec. tauto.
  - intros H. simpl. apply failoverAllowsLogin_spec. auto.
  - intros H. apply andb_false_intro2.
    destruct (failoverAllowsLogin s) eqn:E; [|reflexivity].
    apply failoverAllowsLogin_spec in E. rewrite H in E.
    destruct E; discriminate.
Qed.

Lemma canLogin_iff_witness :
  canLogin true (setFailoverStatus Master initialState) = true
  /\ canLogin true (setFailoverStatus Backup initialState) = false
  /\ canLogin false (setFailoverStatus Master initialState) = false.
Proof.
  split; [|split].
  - apply (canLogin_iff true (setFailoverStatus Master initialState)).
    reflexivity.
  - apply (canLogin_iff true (setFailoverStatus Backup initialState)).
    reflexivity.
  - destruct (canLogin false (setFailoverStatus Master initialState)) eqn:E;
      [|reflexivity].
    apply (canLogin_iff false (setFailoverStatus Master initialState)) in E.
    destruct E as [E _]. discriminate E.
Defined.

(** ** Updaters *)

(** Updates of different properties commute: the order in which a push
    handler and a request completion reach the state does not matter. *)
Lemma setFailoverStatus_setFailoverIps (v : FailoverStatus) (l : list string)
    (s : SigninState) :
  setFailoverStatus v (setFailoverIps l s) = setFailoverIps l (setFailoverStatus v s).
Proof. destruct s as [? ? [o|]]; reflexivity. Qed.

Lemma setFailoverStatus_setFailoverDisabledReasons (v : FailoverStatus)
    (l : list FailoverDisabledReason) (s : SigninState) :
  setFailoverStatus v (setFailoverDisabledReasons l s)
  = setFailoverDisabledReasons l (setFailoverStatus v s).
Proof. destruct s as [? ? [o|]]; reflexivity. Qed.

Lemma setFailoverIps_setFailoverDisabledReasons (a : list string)
    (l : list FailoverDisabledReason) (s : SigninState) :
  setFailoverIps a (setFailoverDisabledReasons l s)
  = setFailoverDisabledReasons l (setFailoverIps a s).
Proof. destruct s as [? ? [o|]]; reflexivity. Qed.

(** C9. Each updater merges into the current state: it sets its own
    property and leaves every other property as it was.  The properties of
    the failover object are read as the selectors read them
    ([state.failover?.p]). *)
Theorem updaters_merge (s : SigninState) :
  (forall v,
      let s' := setFailoverStatus v s in
      failoverStatus s' = Some v
      /\ failoverIps s' = failoverIps s
      /\ failoverDisabledReasons s' = failoverDisabledReasons s
      /\ isLoading s' = isLoading s
      /\ hasRootPassword s' = hasRootPassword s)
  /\ (forall l,
      let s' := setFailoverIps l s in
      failoverIps s' = Some l
      /\ failoverStatus s' = failoverStatus s
      /\ failoverDisabledReasons s' = failoverDisabledReasons s
      /\ isLoading s' = isLoading s
      /\ hasRootPassword s' = hasRootPassword s)
  /\ (forall l,
      let s' := setFailoverDisabledReasons l s in
      failoverDisabledReasons s' = Some l
      /\ failoverStatus s' = failoverStatus s
      /\ failoverIps s' = failoverIps s
      /\ isLoading s' = isLoading s
      /\ hasRootPassword s' = hasRootPassword s)
  /\ (forall b,
      let s' := setLoadingState b s in
      isLoading s' = b
      /\ hasRootPassword s' = hasRootPassword s
      /\ failover s' = failover s).
Proof.
  destruct s as [l h [o|]]; repeat split.
Qed.

(** ** Redirect target *)

(** C6. [getRedirectUrl] reads nothing but the channel's [redirectUrl] and
    the stored [currentUrl], and picks by precedence: the channel's URL
    when present, whatever the storage holds; else the stored URL when
    present; else [/dashboard].  Present is meant as the code tests it:
    neither [null] nor the empty string. *)
Theorem getRedirectUrl_precedence (w : World) :
  (forall url, ws_redirectUrl w = Some url -> url <> "" ->
     getRedirectUrl w = url)
  /\ (forall url, truthy (ws_redirectUrl w) = false ->
        sessionStorage_currentUrl w = Some url -> url <> "" ->
        getRedirectUrl w = url)
  /\ (truthy (ws_redirectUrl w) = false ->
      truthy (sessionStorage_currentUrl w) = false ->
      getRedirectUrl w = "/dashboard")
  /\ (forall w', ws_redirectUrl w' = ws_redirectUrl w ->
        sessionStorage_currentUrl w' = sessionStorage_currentUrl w ->
        getRedirectUrl w' = getRedirectUrl w).
Proof.
  unfold getRedirectUrl. repeat split.
  - intros url -> Hne. simpl.
    apply String.eqb_neq in Hne. rewrite Hne. reflexivity.
  - intros url -> -> Hne. simpl.
    apply String.eqb_neq in Hne. rewrite Hne. reflexivity.
  - intros -> ->. reflexivity.
  - intros w' -> ->. reflexivity.
Qed.

Lemma getRedirectUrl_precedence_witness :
  getRedirectUrl (newWorld None (Some "/storage") (Some "/shares")) = "/storage"
  /\ getRedirectUrl (newWorld None None (Some "/shares")) = "/shares"
  /\ getRedirectUrl (newWorld None None None) = "/dashboard"
  /\ getRedirectUrl (newWorld (Some "t") None None) = getRedirectUrl (newWorld None None None).
Proof.
  split; [|split; [|split]].
  - apply (proj1 (getRedirectUrl_precedence
                    (newWorld None (Some "/storage") (Some "/shares"))));
      [reflexivity | done].
  - apply (proj1 (proj2 (getRedirectUrl_precedence
                           (newWorld None None (Some "/shares")))));
      [reflexivity | reflexivity | done].
  - apply (proj1 (proj2 (proj2 (getRedirectUrl_precedence (newWorld None None None)))));
      reflexivity.
  - apply (proj2 (proj2 (proj2 (getRedirectUrl_precedence (newWorld None None None)))));
      reflexivity.
Defined.

(** ** Device tree *)

Lemma isVdevGroup_spec (node : JsProps) :
  isVdevGroup node = true <-> is_Some (node !! "group").
Proof.
  unfold isVdevGroup, hasProperty.
  rewrite bool_decide_eq_true. apply elem_of_dom.
Qed.

(** C10. [isVdevGroup] answers true exactly for the nodes that have a
    [group] property: for the object of every [VDevGroup], and for no node
    without that property. *)
Theorem isVdevGroup_iff (node : JsProps) :
  (isVdevGroup node = true <-> is_Some (node !! "group"))
  /\ (forall g : VDevGroup, isVdevGroup (VDevGroup_object g) = true)
  /\ (node !! "group" = None -> isVdevGroup node = false).
Proof.
  split; [apply isVdevGroup_spec|split].
  - intros g. apply isVdevGroup_spec. unfold VDevGroup_object.
    rewrite lookup_insert_eq. eauto.
  - intros Hnone. destruct (isVdevGroup node) eqn:E; [|reflexivity].
    apply isVdevGroup_spec in E. rewrite Hnone in E.
    destruct E as [x E]. discriminate E.
Qed.

Lemma isVdevGroup_iff_witness :
  isVdevGroup (<["guid" := JsString "1234"]> (<["type" := JsString "DISK"]> ∅)) = false
  /\ isVdevGroup (VDevGroup_object (mkVDevGroup "data" "5678" [])) = true.
Proof.
  split.
  - apply (isVdevGroup_iff (<["guid" := JsString "1234"]> (<["type" := JsString "DISK"]> ∅))).
    reflexivity.
  - apply (isVdevGroup_iff ∅).
Defined.

(** ** Further properties of the selectors and updaters *)

(** [hasFailover] needs the failover object to be there: it is false
    before the status is known, true for an object whose status is not
    Single (also one that has no status yet), and together with [canLogin]
    it pins the status to Master. *)
Theorem hasFailover_iff (s : SigninState) :
  (hasFailover s = true <->
     exists o, failover s = Some o /\ status o <> Some Single)
  /\ (failover s = None -> hasFailover s = false)
  /\ (failoverStatus s = Some Single -> hasFailover s = false)
  /\ (forall isConnected,
        hasFailover s = true -> canLogin isConnected s = true ->
        failoverStatus s = Some Master).
Proof.
  unfold hasFailover, canLogin.
  destruct s as [l h [o|]]; simpl.
  - split; [|split; [|split]].
    + rewrite bool_decide_eq_true. split.
      * intros H. exists o. split; [reflexivity|exact H].
      * intros (o' & [= <-] & H). exact H.
    + discriminate.
    + unfold failoverStatus. simpl. intros H.
      apply bool_decide_eq_false. intros Hne. apply Hne. exact H.
    + intros c H Hc. apply bool_decide_eq_true in H.
      apply andb_true_iff in Hc as [_ Hc].
      apply failoverAllowsLogin_spec in Hc. unfold failoverStatus in *. simpl in *.
      destruct Hc as [Hc|Hc]; [contradiction|exact Hc].
  - split; [|split; [|split]].
    + split; [discriminate|]. intros (o' & Ho & _). discriminate Ho.
    + reflexivity.
    + reflexivity.
    + intros c H. discriminate H.
Qed.

Lemma hasFailover_iff_witness :
  hasFailover initialState = false
  /\ hasFailover (setFailoverStatus Single initialState) = false
  /\ hasFailover (setFailoverIps ["10.0.0.1"] initialState) = true
  /\ failoverStatus (setFailoverStatus Master initialState) = Some Master.
Proof.
  split; [|split; [|split]].
  - apply (proj1 (proj2 (hasFailover_iff initialState))). reflexivity.
  - apply (proj1 (proj2 (proj2 (hasFailover_iff (setFailoverStatus Single initialState))))).
    reflexivity.
  - apply (proj1 (hasFailover_iff (setFailoverIps ["10.0.0.1"] initialState))).
    eexists. split; [reflexivity|discriminate].
  - apply (proj2 (proj2 (proj2 (hasFailover_iff (setFailoverStatus Master initialState))))
             true); reflexivity.
Defined.


(** Two updates of the same property: the later one wins, the earlier one
    leaves no trace. *)
Theorem updaters_overwrite (s : SigninState) :
  (forall v v', setFailoverStatus v' (setFailoverStatus v s) = setFailoverStatus v' s)
  /\ (forall a a', setFailoverIps a' (setFailoverIps a s) = setFailoverIps a' s)
  /\ (forall l l', setFailoverDisabledReasons l' (setFailoverDisabledReasons l s)
                   = setFailoverDisabledReasons l' s)
  /\ (forall b b', setLoadingState b' (setLoadingState b s) = setLoadingState b' s)
  /\ (forall b b', patchHasRootPassword b' (patchHasRootPassword b s)
                   = patchHasRootPassword b' s).
Proof.
  destruct s as [l h [o|]]; repeat split.
Qed.

(** ** Further properties of the redirect target *)

Lemma getRedirectUrl_not_empty (w : World) : getRedirectUrl w <> "".
Proof.
  unfold getRedirectUrl.
  destruct (ws_redirectUrl w) as [r|]; simpl.
  - destruct (String.eqb r "") eqn:Er; simpl.
    + destruct (sessionStorage_currentUrl w) as [c|]; simpl; [|discriminate].
      destruct (String.eqb c "") eqn:Ec; simpl; [discriminate|].
      apply String.eqb_neq. exact Ec.
    + apply String.eqb_neq. exact Er.
  - destruct (sessionStorage_currentUrl w) as [c|]; simpl; [|discriminate].
    destruct (String.eqb c "") eqn:Ec; simpl; [discriminate|].
    apply String.eqb_neq. exact Ec.
Qed.

(** [getRedirectUrl] never answers the empty string: an empty
    [redirectUrl] or stored [currentUrl] is passed over. *)
Theorem getRedirectUrl_nonempty (w : World) :
  getRedirectUrl w <> ""
  /\ (ws_redirectUrl w = Some "" ->
      getRedirectUrl w = if truthy (sessionStorage_currentUrl w)
                         then default "" (sessionStorage_currentUrl w)
                         else "/dashboard")
  /\ (ws_redirectUrl w = None -> sessionStorage_currentUrl w = Some "" ->
      getRedirectUrl w = "/dashboard").
Proof.
  split; [apply getRedirectUrl_not_empty|]. unfold getRedirectUrl. split.
  - intros ->. reflexivity.
  - intros -> ->. reflexivity.
Qed.

Lemma getRedirectUrl_nonempty_witness :
  getRedirectUrl (newWorld None (Some "") (Some "/shares")) = "/shares"
  /\ getRedirectUrl (newWorld None None (Some "")) = "/dashboard".
Proof.
  split.
  - apply (proj1 (proj2 (getRedirectUrl_nonempty
                           (newWorld None (Some "") (Some "/shares"))))).
    reflexivity.
  - apply (proj2 (proj2 (getRedirectUrl_nonempty (newWorld None None (Some "")))));
      reflexivity.
Defined.

(** ** Further properties of the device tree guard *)



(** ** Effects *)

Section Effects.

Variable instant : string -> string.
Variable statusSubscriptionId : string.
Variable disabledReasonsSubscriptionId : string.

Local Abbreviation step := (step instant statusSubscriptionId disabledReasonsSubscriptionId).
Local Abbreviation run := (run instant statusSubscriptionId disabledReasonsSubscriptionId).

Ltac world w := destruct w as [st tok red subs cur ie le lg]; simpl in *.

Ltac log_delta :=
  simpl; rewrite <- ?app_assoc; simpl;
  first [ reflexivity | symmetry; apply app_nil_r ].

Ltac open_step :=
  repeat progress
    (unfold init, handleSuccessfulLogin, info_join, loadFailoverStatus_switchMap,
       loadAdditionalFailoverInfo_tap, loadAdditionalFailoverInfo,
       subscribeToFailoverUpdates, loginWithToken_tap, generateToken_tap,
       handleSuccessfulLogin_next, handleSuccessfulLogin_error,
       init_join, init_afterJoin, init_next, init_error, showSnackbar,
       ws_call, ws_sub, ws_unsub, subscribed in *;
     simpl in *).

Ltac split_match :=
  repeat match goal with
         | |- context [match ?x with _ => _ end] =>
             lazymatch x with
             | context [match _ with _ => _ end] => fail
             | _ => first [ is_var x; destruct x | destruct x eqn:? ]
             end; simpl in *
         end.

Lemma unsub_twice_subseteq (X : gset (string * string)) (a b : string * string) :
  X ∖ {[a]} ∖ {[b]} ⊆ X.
Proof.
  intros x Hx.
  apply elem_of_difference in Hx as [Hx _].
  apply elem_of_difference in Hx as [Hx _].
  exact Hx.
Qed.

(** As long as every failover status that arrives is Single, a step
    neither subscribes nor asks for the failover details. *)
Lemma step_single (ev : Event) (w : World) :
  ~ awaitsFailoverInfo w ->
  (forall r, ev = FailoverStatusResponse r -> r = Ok Single) ->
  exists delta,
    log (step ev w) = log w ++ delta
    /\ Forall noFailoverDetail delta
    /\ ws_subscriptions (step ev w) ⊆ ws_subscriptions w
    /\ ~ awaitsFailoverInfo (step ev w).
Proof.
  intros Hinv Hev. world w. unfold awaitsFailoverInfo in *; simpl in *.
  destruct ev as [| |r|r|r|r|r|r|s|l]; simpl;
    try (specialize (Hev _ eq_refl); subst r);
    open_step; split_match; open_step; split_match; try tauto;
    try (eexists; split; [log_delta|];
         split; [repeat constructor; done|];
         split; [first [reflexivity | apply unsub_twice_subseteq]|tauto]).
Qed.

Lemma run_single (evs : list Event) (w : World) :
  ~ awaitsFailoverInfo w ->
  (forall r, FailoverStatusResponse r ∈ evs -> r = Ok Single) ->
  exists delta,
    log (run evs w) = log w ++ delta
    /\ Forall noFailoverDetail delta
    /\ ws_subscriptions (run evs w) ⊆ ws_subscriptions w.
Proof.
  revert w. induction evs as [|ev evs IH]; intros w Hinv Hev; simpl.
  - exists []. split; [symmetry; apply app_nil_r | split; [constructor|reflexivity]].
  - destruct (step_single ev w Hinv) as (d1 & Hd1 & Hq1 & Hs1 & Hinv').
    { intros r ->. apply Hev. left. }
    destruct (IH (step ev w) Hinv') as (d2 & Hd2 & Hq2 & Hs2).
    { intros r Hr. apply Hev. right. exact Hr. }
    exists (d1 ++ d2). split; [|split].
    + rewrite Hd2, Hd1, app_assoc. reflexivity.
    + apply Forall_app. split; assumption.
    + etransitivity; [exact Hs2 | exact Hs1].
Qed.

(** C3. In a run of [init] where the failover status arrives as Single,
    the store opens no push subscription and never calls
    [failover.get_ips] or [failover.disabled.reasons]: none of these
    appears among the calls made from the trigger on, and the channel
    holds no subscription it did not hold before. *)
Theorem init_single_no_failover_detail (w : World) (evs : list Event) :
  (forall r, FailoverStatusResponse r ∈ evs -> r = Ok Single) ->
  exists delta,
    log (run (TriggerInit :: evs) w) = log w ++ delta
    /\ (forall topic id, WsSub topic id ∉ delta)
    /\ (forall params, WsCall "failover.get_ips" params ∉ delta)
    /\ (forall params, WsCall "failover.disabled.reasons" params ∉ delta)
    /\ ws_subscriptions (run (TriggerInit :: evs) w) ⊆ ws_subscriptions w.
Proof.
  intros Hev. simpl.
  destruct (run_single evs (init w)) as (delta & Hlog & Hq & Hsubs).
  - unfold awaitsFailoverInfo. simpl. tauto.
  - exact Hev.
  - exists ([WsCall "user.has_root_password" []; WsCall "failover.status" []] ++ delta).
    split.
    + rewrite Hlog. world w. rewrite <- !app_assoc. reflexivity.
    + assert (Hall : Forall noFailoverDetail
                ([WsCall "user.has_root_password" []; WsCall "failover.status" []] ++ delta)).
      { apply Forall_app. split; [repeat constructor; done | exact Hq]. }
      rewrite Forall_forall in Hall.
      repeat split; try exact Hsubs;
        intros; intros Hin; apply Hall in Hin; simpl in Hin; tauto.
Qed.

Lemma falsy_token (t : option string) :
  truthy t = false -> t = None \/ t = Some "".
Proof.
  destruct t as [[|c s]|]; simpl; intros H; [right|discriminate H|left]; reflexivity.
Qed.

(** Without a cached token, and with nothing but its own deliveries,
    [init] never reaches the token login and is idle only with the
    loading flag down. *)
Lemma step_bootstrap (ev : Event) (w : World) :
  bootstrapDelivery ev ->
  truthy (ws_token w) = false ->
  initEffect w <> InitLoginToken ->
  (initEffect w = InitIdle -> isLoading (state w) = false) ->
  truthy (ws_token (step ev w)) = false
  /\ initEffect (step ev w) <> InitLoginToken
  /\ (initEffect (step ev w) = InitIdle -> isLoading (state (step ev w)) = false).
Proof.
  intros Hev Htok Hlt Hidle. world w.
  destruct ev as [| |r|r|r|r|r|r|s|l]; simpl in Hev; try tauto; simpl;
    open_step; rewrite ?Htok; simpl; split_match;
    repeat split; try congruence; try tauto.
Qed.

Lemma step_rootPassword (b : bool) (ev : Event) (w : World) :
  bootstrapDelivery ev ->
  succeeded ev ->
  (forall r, ev = HasRootPasswordResponse r -> r = Ok b) ->
  truthy (ws_token w) = false ->
  initEffect w <> InitLoginToken ->
  rootPasswordSettled b w ->
  rootPasswordSettled b (step ev w).
Proof.
  intros Hev Hok Hb Htok Hlt Hset. world w. unfold rootPasswordSettled in *.
  destruct ev as [| |r|r|r|r|r|r|s|l]; simpl in Hev, Hok; try tauto; simpl;
    try (destruct r as [v|e]; [|tauto]);
    try (specialize (Hb _ eq_refl); injection Hb as ->);
    open_step; rewrite ?Htok; simpl; split_match;
    try congruence; try tauto.
Qed.

Lemma run_bootstrap (evs : list Event) (w : World) :
  Forall bootstrapDelivery evs ->
  truthy (ws_token w) = false ->
  initEffect w <> InitLoginToken ->
  (initEffect w = InitIdle -> isLoading (state w) = false) ->
  initEffect (run evs w) = InitIdle -> isLoading (state (run evs w)) = false.
Proof.
  revert w. induction evs as [|ev evs IH]; intros w Hevs Htok Hlt Hidle; simpl.
  - exact Hidle.
  - apply Forall_cons in Hevs as [Hev Hevs].
    destruct (step_bootstrap ev w Hev Htok Hlt Hidle) as (Htok' & Hlt' & Hidle').
    apply IH; assumption.
Qed.

Lemma run_rootPassword (b : bool) (evs : list Event) (w : World) :
  Forall bootstrapDelivery evs ->
  Forall succeeded evs ->
  (forall r, HasRootPasswordResponse r ∈ evs -> r = Ok b) ->
  truthy (ws_token w) = false ->
  initEffect w <> InitLoginToken ->
  rootPasswordSettled b w ->
  rootPasswordSettled b (run evs w).
Proof.
  revert w.
  induction evs as [|ev evs IH]; intros w Hevs Hoks Hb Htok Hlt Hset; simpl.
  - exact Hset.
  - apply Forall_cons in Hevs as [Hev Hevs].
    apply Forall_cons in Hoks as [Hok Hoks].
    assert (Hstep : truthy (ws_token (step ev w)) = false
                    /\ initEffect (step ev w) <> InitLoginToken).
    { world w.
      destruct ev as [| |r|r|r|r|r|r|s|l]; simpl in Hev; try tauto; simpl;
        open_step; rewrite ?Htok; simpl; split_match;
        split; congruence. }
    destruct Hstep as [Htok' Hlt'].
    apply IH; try assumption.
    + intros r Hr. apply Hb. right. exact Hr.
    + apply step_rootPassword; try assumption.
      intros r ->. apply Hb. left.
Qed.

(** C7. With no cached token on the channel, a run of [init] does come
    to an end whatever each request answers and in whichever order the
    answers arrive; and whenever the run has
    ended, in whatever order its deliveries arrived and whether they
    succeeded or failed, [isLoading] is false; if none failed,
    [hasRootPassword] is the boolean that [user.has_root_password]
    returned. *)
Theorem init_without_token (w : World) :
  truthy (ws_token w) = false ->
  (forall rp rs ri rr,
      Forall (fun evs => initEffect (run (TriggerInit :: evs) w) = InitIdle)
             (bootstrapOrders rp rs ri rr))
  /\ (forall evs,
        Forall bootstrapDelivery evs ->
        initEffect (run (TriggerInit :: evs) w) = InitIdle ->
        isLoading (state (run (TriggerInit :: evs) w)) = false
        /\ (forall b,
              Forall succeeded evs ->
              (forall r, HasRootPasswordResponse r ∈ evs -> r = Ok b) ->
              hasRootPassword (state (run (TriggerInit :: evs) w)) = b)).
Proof.
  intros Htok. split.
  - intros rp rs ri rr.
    destruct (falsy_token _ Htok) as [Hnone|Hempty];
      destruct w as [st tok red subs cur ie le lg]; simpl in Hnone || simpl in Hempty;
      subst tok; unfold bootstrapOrders;
      repeat first [apply Forall_nil_2 | apply Forall_cons_2];
      destruct rp as [vp|ep], rs as [[| | | |name]|es], ri as [vi|ei], rr as [vr|er];
      reflexivity.
  - intros evs Hevs Hend. simpl in *.
    assert (Htok0 : truthy (ws_token (init w)) = false) by (world w; exact Htok).
    assert (Hlt0 : initEffect (init w) <> InitLoginToken) by (world w; discriminate).
    split.
    + apply run_bootstrap; try assumption. world w. discriminate.
    + intros b Hoks Hb.
      pose proof (run_rootPassword b evs (init w) Hevs Hoks Hb Htok0 Hlt0) as Hset.
      unfold rootPasswordSettled in Hset. rewrite Hend in Hset.
      apply Hset. world w. exact I.
Qed.

(** C2. When the channel answers [loginWithToken] that the token was
    not accepted, the cached token is cleared, [isLoading] is false, the
    only call made is one notification with the text
    "Token expired, please log back in.", and [handleSuccessfulLogin] is
    not triggered: its pipeline is as it was, and neither its dismissal
    of the snack bar nor its token request is made. *)
Theorem loginWithToken_rejected (w : World) :
  initEffect w = InitLoginToken ->
  let w' := step (LoginTokenResponse (Ok false)) w in
  ws_token w' = None
  /\ isLoading (state w') = false
  /\ log w' = log w ++ [SnackbarOpen (instant "Token expired, please log back in.")
                                     (instant "Close") 4000 "bottom"]
  /\ loginEffect w' = loginEffect w
  /\ initEffect w' = InitIdle.
Proof.
  intros Hinit. world w. subst ie. simpl. repeat split.
Qed.

(** C5. When [auth.generate_token] answers with an empty token (or none),
    the notification "Error generating token, please try again." is
    shown, the cached token stays as it was, and [handleSuccessfulLogin]
    goes on with its success branch: it unsubscribes, navigates to the
    redirect target and does not call the error handler. *)
Theorem generateToken_empty (w : World) (token : option string) :
  loginEffect w <> LoginDead ->
  truthy token = false ->
  let w' := run [TriggerHandleSuccessfulLogin; GenerateTokenResponse (Ok token)] w in
  log w' = log w ++
    [SnackbarDismiss;
     WsCall "auth.generate_token" [tokenLifetime];
     SnackbarOpen (instant "Error generating token, please try again.")
                  (instant "Close") 4000 "bottom";
     WsUnsub "failover.status" statusSubscriptionId;
     WsUnsub "failover.disabled_reasons" disabledReasonsSubscriptionId;
     NavigateByUrl (getRedirectUrl w)]
  /\ ws_token w' = ws_token w
  /\ loginEffect w' = LoginIdle.
Proof.
  intros Halive Hfalsy. world w.
  destruct le; try congruence; open_step; rewrite Hfalsy; simpl;
    rewrite <- !app_assoc; repeat split.
Qed.

(** C4. What a successful [handleSuccessfulLogin] does after
    [subscribeToFailoverUpdates]: it navigates to the redirect target and
    unsubscribes the status subscription under the topic and identifier
    it was opened with, but it unsubscribes the disabled-reasons
    subscription under the topic [failover.disabled_reasons], whereas it
    was opened under [failover.disabled.reasons].  That subscription
    stays registered, and a later push still reaches the state. *)
Theorem handleSuccessfulLogin_unsub_topic (w : World) (token : option string) :
  loginEffect w <> LoginDead ->
  let w1 := subscribeToFailoverUpdates statusSubscriptionId
              disabledReasonsSubscriptionId w in
  let w2 := run [TriggerHandleSuccessfulLogin; GenerateTokenResponse (Ok token)] w1 in
  log w1 = log w ++
    [WsSub "failover.status" statusSubscriptionId;
     WsSub "failover.disabled.reasons" disabledReasonsSubscriptionId]
  /\ log w2 = log w1 ++
    [SnackbarDismiss; WsCall "auth.generate_token" [tokenLifetime]] ++
    (if truthy token then []
     else [SnackbarOpen (instant "Error generating token, please try again.")
                        (instant "Close") 4000 "bottom"]) ++
    [WsUnsub "failover.status" statusSubscriptionId;
     WsUnsub "failover.disabled_reasons" disabledReasonsSubscriptionId;
     NavigateByUrl (getRedirectUrl w)]
  /\ subscribed "failover.status" statusSubscriptionId w2 = false
  /\ subscribed "failover.disabled.reasons" disabledReasonsSubscriptionId w2 = true
  /\ (forall reasons,
        failoverDisabledReasons (state (step (DisabledReasonsPush reasons) w2))
        = Some reasons).
Proof.
  intros Halive. world w.
  assert (Hkept : ("failover.disabled.reasons", disabledReasonsSubscriptionId)
            ∈ ({[("failover.disabled.reasons", disabledReasonsSubscriptionId)]}
               ∪ ({[("failover.status", statusSubscriptionId)]} ∪ subs))
              ∖ {[("failover.status", statusSubscriptionId)]}
              ∖ {[("failover.disabled_reasons", disabledReasonsSubscriptionId)]}).
  { rewrite !elem_of_difference, elem_of_union, !elem_of_singleton.
    split; [split|]; [left; reflexivity | intros [= ?] | intros [= ?]]. }
  assert (Hgone : ("failover.status", statusSubscriptionId)
            ∉ ({[("failover.disabled.reasons", disabledReasonsSubscriptionId)]}
               ∪ ({[("failover.status", statusSubscriptionId)]} ∪ subs))
              ∖ {[("failover.status", statusSubscriptionId)]}
              ∖ {[("failover.disabled_reasons", disabledReasonsSubscriptionId)]}).
  { rewrite !elem_of_difference, !elem_of_singleton. tauto. }
  destruct le; try congruence; open_step;
    (destruct (truthy token) eqn:Htok; simpl;
     rewrite <- ?app_assoc; simpl;
     (split; [reflexivity|]); (split; [reflexivity|]);
     (split; [apply bool_decide_eq_false; exact Hgone|]);
     (split; [apply bool_decide_eq_true; exact Hkept|]);
     intros reasons; rewrite (bool_decide_eq_true_2 _ Hkept); reflexivity).
Qed.

(** C8. When [auth.generate_token] fails, [handleSuccessfulLogin] hands
    the error to the error handler and comes to rest with [isLoading]
    still true: nothing is in flight any more, and the effect is
    completed for good.  The error path of [init] resets the flag. *)
Theorem handleSuccessfulLogin_failure_keeps_loading (w : World) (e : WebsocketError) :
  loginEffect w <> LoginDead ->
  let w' := run [TriggerHandleSuccessfulLogin; GenerateTokenResponse (Failed e)] w in
  isLoading (state w') = true
  /\ loginEffect w' = LoginDead
  /\ initEffect w' = initEffect w
  /\ log w' = log w ++
       [SnackbarDismiss; WsCall "auth.generate_token" [tokenLifetime]; HandleWsError e]
  /\ isLoading (state (run [TriggerInit; HasRootPasswordResponse (Failed e)] w)) = false
  /\ initEffect (run [TriggerInit; HasRootPasswordResponse (Failed e)] w) = InitIdle.
Proof.
  intros Halive. world w.
  destruct le; try congruence; simpl; rewrite <- ?app_assoc; repeat split.
Qed.

(** ** Further properties of the effects *)

Lemma count_app (p : Effect -> bool) (l1 l2 : list Effect) :
  count p (l1 ++ l2) = count p l1 + count p l2.
Proof.
  unfold count. rewrite List.filter_app, List.length_app. reflexivity.
Qed.

Ltac in_list :=
  repeat first [ apply list_elem_of_here | apply list_elem_of_further ].

Lemma step_storeEffect (ev : Event) (w : World) :
  exists delta,
    log (step ev w) = log w ++ delta
    /\ Forall (storeEffect instant statusSubscriptionId disabledReasonsSubscriptionId) delta.
Proof.
  world w.
  destruct ev as [| |r|r|r|r|r|r|s|l]; simpl;
    open_step; split_match;
    (eexists; split; [log_delta|]);
    repeat apply Forall_cons_2; try apply Forall_nil_2; simpl;
    try exact I; try in_list;
    try (repeat split; in_list);
    try apply getRedirectUrl_not_empty;
    try (apply negb_false_iff; assumption).
Qed.

(** Whatever reaches the store, in whatever order, it calls nothing but
    its five RPC methods (the token request always with a lifetime of 300),
    subscribes and unsubscribes only with its own two identifiers, opens
    only its two notifications (Close action, 4000 ms, bottom), never tries
    a token login with an empty token and never navigates to an empty
    URL. *)
Theorem run_storeEffect (evs : list Event) (w : World) :
  exists delta,
    log (run evs w) = log w ++ delta
    /\ Forall (storeEffect instant statusSubscriptionId disabledReasonsSubscriptionId) delta.
Proof.
  revert w. induction evs as [|ev evs IH]; intros w; simpl.
  - exists []. split; [symmetry; apply app_nil_r | apply Forall_nil_2].
  - destruct (step_storeEffect ev w) as (d1 & Hd1 & Hq1).
    destruct (IH (step ev w)) as (d2 & Hd2 & Hq2).
    exists (d1 ++ d2). split.
    + rewrite Hd2, Hd1, app_assoc. reflexivity.
    + apply Forall_app. split; assumption.
Qed.

Lemma step_navigate (ev : Event) (w : World) :
  exists delta,
    log (step ev w) = log w ++ delta
    /\ count isNavigate delta + loginPending (step ev w)
       <= count isGenerateToken delta + loginPending w.
Proof.
  world w. unfold loginPending.
  destruct ev as [| |r|r|r|r|r|r|s|l]; simpl;
    open_step; split_match;
    (eexists; split; [log_delta|]); unfold count; simpl; lia.
Qed.

(** The store navigates only on the answer to a token request, once per
    answer: among the calls of any run, the navigations, plus the request
    still waiting at the end, never exceed the token requests made, plus
    the one that was waiting at the start. *)
Theorem navigations_follow_token_requests (evs : list Event) (w : World) :
  exists delta,
    log (run evs w) = log w ++ delta
    /\ count isNavigate delta + loginPending (run evs w)
       <= count isGenerateToken delta + loginPending w.
Proof.
  revert w. induction evs as [|ev evs IH]; intros w; simpl.
  - exists []. split; [symmetry; apply app_nil_r | unfold count; simpl; lia].
  - destruct (step_navigate ev w) as (d1 & Hd1 & Hq1).
    destruct (IH (step ev w)) as (d2 & Hd2 & Hq2).
    exists (d1 ++ d2). split.
    + rewrite Hd2, Hd1, app_assoc. reflexivity.
    + rewrite !count_app. lia.
Qed.

Lemma step_bootstrap_report (ev : Event) (w : World) :
  bootstrapDelivery ev ->
  exists delta,
    log (step ev w) = log w ++ delta
    /\ count isHandleWsError delta + initActive (step ev w) <= initActive w
    /\ count isUnsub delta = 0
    /\ count isNavigate delta = 0.
Proof.
  intros Hev. world w. unfold initActive.
  destruct ev as [| |r|r|r|r|r|r|s|l]; simpl in Hev; try tauto; simpl;
    open_step; split_match;
    (eexists; split; [log_delta|]); unfold count; simpl; repeat split; lia.
Qed.

Lemma step_bootstrap_loading (ev : Event) (w : World) :
  bootstrapDelivery ev ->
  isLoading (state w) = match initEffect w with InitIdle => false | _ => true end ->
  isLoading (state (step ev w))
  = match initEffect (step ev w) with InitIdle => false | _ => true end.
Proof.
  intros Hev Hinv. world w.
  destruct ev as [| |r|r|r|r|r|r|s|l]; simpl in Hev; try tauto; simpl;
    open_step; split_match; simpl in *; congruence.
Qed.

(** During a run of [init], with or without a cached token, the loading
    flag is up exactly while the pipeline of [init] is in flight: true
    until the run has ended, false from then on. *)
Theorem bootstrap_loading_flag (evs : list Event) (w : World) :
  Forall bootstrapDelivery evs ->
  isLoading (state (run (TriggerInit :: evs) w))
  = match initEffect (run (TriggerInit :: evs) w) with
    | InitIdle => false
    | _ => true
    end.
Proof.
  intros Hevs. simpl.
  assert (Hinit : isLoading (state (init w))
                  = match initEffect (init w) with InitIdle => false | _ => true end)
    by reflexivity.
  revert Hinit. generalize (init w). clear w.
  induction evs as [|ev evs IH]; intros w Hinit; simpl; [exact Hinit|].
  apply Forall_cons in Hevs as [Hev Hevs].
  apply IH; [exact Hevs|]. apply step_bootstrap_loading; assumption.
Qed.


Lemma step_channel_writes (ev : Event) (w : World) :
  ws_redirectUrl (step ev w) = ws_redirectUrl w
  /\ sessionStorage_currentUrl (step ev w) = sessionStorage_currentUrl w
  /\ (ws_token (step ev w) = ws_token w
      \/ ws_token (step ev w) = None
      \/ truthy (ws_token (step ev w)) = true).
Proof.
  world w.
  destruct ev as [| |r|r|r|r|r|r|s|l]; simpl;
    open_step; split_match; simpl;
    repeat split; auto.
  all: right; right; apply negb_false_iff; assumption.
Qed.

(** The store never writes the channel's [redirectUrl] nor the session
    storage, so the redirect target stays what it was; and it writes the
    cached token only to clear it or to store a non-empty one: a token that
    was not the empty string never becomes the empty string. *)
Theorem channel_writes (evs : list Event) (w : World) :
  ws_redirectUrl (run evs w) = ws_redirectUrl w
  /\ sessionStorage_currentUrl (run evs w) = sessionStorage_currentUrl w
  /\ getRedirectUrl (run evs w) = getRedirectUrl w
  /\ (ws_token (run evs w) = ws_token w
      \/ ws_token (run evs w) = None
      \/ truthy (ws_token (run evs w)) = true)
  /\ (ws_token w <> Some "" -> ws_token (run evs w) <> Some "").
Proof.
  assert (Hmain : ws_redirectUrl (run evs w) = ws_redirectUrl w
                  /\ sessionStorage_currentUrl (run evs w) = sessionStorage_currentUrl w
                  /\ (ws_token (run evs w) = ws_token w
                      \/ ws_token (run evs w) = None
                      \/ truthy (ws_token (run evs w)) = true)).
  { revert w. induction evs as [|ev evs IH]; intros w; simpl; [auto|].
    destruct (step_channel_writes ev w) as (Hr & Hc & Ht).
    destruct (IH (step ev w)) as (Hr' & Hc' & Ht').
    split; [congruence|]. split; [congruence|].
    destruct Ht' as [Ht'|[Ht'|Ht']]; [|auto|auto].
    rewrite Ht'. exact Ht. }
  destruct Hmain as (Hr & Hc & Ht).
  split; [exact Hr|]. split; [exact Hc|]. split; [|split; [exact Ht|]].
  - unfold getRedirectUrl. rewrite Hr, Hc. reflexivity.
  - intros Hne Hempty.
    destruct Ht as [Ht|[Ht|Ht]]; rewrite Hempty in Ht;
      [apply Hne; symmetry; exact Ht | discriminate Ht | discriminate Ht].
Qed.

(** A push on the status topic reaches the state only while the status
    subscription is registered; then it replaces the status and nothing
    else, so [canLogin] follows the pushed status while the addresses and
    the disabled reasons stay; no call is made and no pipeline moves. *)
Theorem failoverStatus_push (s : FailoverStatus) (w : World) :
  (subscribed "failover.status" statusSubscriptionId w = false ->
   step (FailoverStatusPush s) w = w)
  /\ (subscribed "failover.status" statusSubscriptionId w = true ->
      let w' := step (FailoverStatusPush s) w in
      failoverStatus (state w') = Some s
      /\ failoverIps (state w') = failoverIps (state w)
      /\ failoverDisabledReasons (state w') = failoverDisabledReasons (state w)
      /\ isLoading (state w') = isLoading (state w)
      /\ hasRootPassword (state w') = hasRootPassword (state w)
      /\ (forall isConnected,
            canLogin isConnected (state w')
            = isConnected && bool_decide (s = Single \/ s = Master))
      /\ log w' = log w
      /\ initEffect w' = initEffect w
      /\ loginEffect w' = loginEffect w).
Proof.
  split; intros Hsub; simpl; rewrite Hsub; [reflexivity|].
  destruct w as [[l h [o|]] tok red subs cur ie le lg]; simpl;
    repeat split; intros c; unfold canLogin, failoverAllowsLogin; simpl;
    f_equal; apply bool_decide_ext;
    rewrite !elem_of_cons, elem_of_nil; tauto.
Qed.

(** A push of the status and an answer to any request of [init] other than
    the status request itself may arrive in either order: the outcome is
    the same, so neither update is lost. *)
Theorem failoverStatus_push_commutes (s : FailoverStatus) (ev : Event) (w : World) :
  answerBesidesStatus ev ->
  step (FailoverStatusPush s) (step ev w) = step ev (step (FailoverStatusPush s) w).
Proof.
  intros Hev.
  destruct w as [[l h [o|]] tok red subs cur ie le lg];
    destruct ev as [| |r|r|r|r|r|r|s'|l']; simpl in Hev; try tauto; simpl;
    open_step; split_match; simpl in *; try reflexivity; try congruence.
Qed.

(** When every request of the bootstrap succeeds, the order in which the
    answers arrive does not matter: in each of the possible orders the
    state ends up the same, with the answered values in it; the loading
    flag goes down unless a cached token sends the run on to the token
    login. *)
Theorem bootstrap_order_independent (w : World) (b : bool) (s : FailoverStatus)
    (a : list string) (l : list FailoverDisabledReason) :
  Forall
    (fun evs =>
       let w' := run (TriggerInit :: evs) w in
       hasRootPassword (state w') = b
       /\ failoverStatus (state w') = Some s
       /\ (s <> Single ->
           failoverIps (state w') = Some a
           /\ failoverDisabledReasons (state w') = Some l)
       /\ isLoading (state w') = truthy (ws_token w)
       /\ initEffect w' = (if truthy (ws_token w) then InitLoginToken else InitIdle)
       /\ state w' = state (run [TriggerInit; HasRootPasswordResponse (Ok b);
                                 FailoverStatusResponse (Ok s); GetIpsResponse (Ok a);
                                 DisabledReasonsResponse (Ok l)] w))
    (bootstrapOrders (Ok b) (Ok s) (Ok a) (Ok l)).
Proof.
  destruct w as [[ld hp [o|]] [[|c t]|] red subs cur ie le lg];
    destruct s as [| | | |name]; unfold bootstrapOrders;
    repeat first [apply Forall_nil_2 | apply Forall_cons_2];
    cbv zeta; vm_compute; repeat split;
    exfalso; match goal with H : ?x = ?x -> False |- _ => exact (H eq_refl) end.
Qed.

Lemma step_login_dead (ev : Event) (w : World) :
  loginEffect w = LoginDead -> loginEvent ev -> step ev w = w.
Proof.
  intros Hdead Hev. world w. subst le.
  destruct ev as [| |r|r|r|r|r|r|s|l]; simpl in Hev; try tauto; reflexivity.
Qed.


(** When the channel accepts the cached token, the store hands over to
    [handleSuccessfulLogin]: the snack bar is dismissed and the token
    request goes out, the cached token stays, and the pipeline of [init]
    ends, lowering the loading flag while the token request is in
    flight. *)
Theorem loginWithToken_accepted (w : World) :
  initEffect w = InitLoginToken ->
  loginEffect w <> LoginDead ->
  let w' := step (LoginTokenResponse (Ok true)) w in
  log w' = log w ++ [SnackbarDismiss; WsCall "auth.generate_token" [tokenLifetime]]
  /\ loginEffect w' = LoginGenerating
  /\ initEffect w' = InitIdle
  /\ ws_token w' = ws_token w
  /\ isLoading (state w') = false.
Proof.
  intros Hinit Halive. world w. subst ie.
  destruct le; try congruence; simpl; rewrite <- ?app_assoc; repeat split.
Qed.

(** When [auth.generate_token] answers a non-empty token, it becomes the
    cached token, no notification is shown, and the store unsubscribes and
    navigates to the redirect target; the loading flag stays up. *)
Theorem generateToken_fresh (w : World) (token : option string) :
  loginEffect w <> LoginDead ->
  truthy token = true ->
  let w' := run [TriggerHandleSuccessfulLogin; GenerateTokenResponse (Ok token)] w in
  log w' = log w ++
    [SnackbarDismiss;
     WsCall "auth.generate_token" [tokenLifetime];
     WsUnsub "failover.status" statusSubscriptionId;
     WsUnsub "failover.disabled_reasons" disabledReasonsSubscriptionId;
     NavigateByUrl (getRedirectUrl w)]
  /\ ws_token w' = token
  /\ loginEffect w' = LoginIdle
  /\ isLoading (state w') = true.
Proof.
  intros Halive Htruthy. world w.
  destruct le; try congruence; open_step; rewrite Htruthy; simpl;
    rewrite <- !app_assoc; repeat split.
Qed.


End Effects.

(** ** The properties on a concrete store *)

Lemma loginWithToken_rejected_witness :
  initEffect awaitingTokenLogin = InitLoginToken
  /\ (let w' := step untranslated exampleStatusId exampleReasonsId
                  (LoginTokenResponse (Ok false)) awaitingTokenLogin in
      ws_token w' = None
      /\ isLoading (state w') = false
      /\ log w' = log awaitingTokenLogin ++
           [SnackbarOpen "Token expired, please log back in." "Close" 4000 "bottom"]
      /\ loginEffect w' = loginEffect awaitingTokenLogin
      /\ initEffect w' = InitIdle).
Proof.
  split; [reflexivity|].
  apply (loginWithToken_rejected untranslated exampleStatusId exampleReasonsId
           awaitingTokenLogin).
  reflexivity.
Defined.

Lemma init_single_no_failover_detail_witness :
  exists delta,
    log (run untranslated exampleStatusId exampleReasonsId
           [TriggerInit; FailoverStatusResponse (Ok Single);
            HasRootPasswordResponse (Ok false)]
           (newWorld None None None)) = [] ++ delta
    /\ (forall topic id, WsSub topic id ∉ delta)
    /\ (forall params, WsCall "failover.get_ips" params ∉ delta)
    /\ (forall params, WsCall "failover.disabled.reasons" params ∉ delta)
    /\ ws_subscriptions
         (run untranslated exampleStatusId exampleReasonsId
            [TriggerInit; FailoverStatusResponse (Ok Single);
             HasRootPasswordResponse (Ok false)]
            (newWorld None None None)) ⊆ ∅.
Proof.
  apply (init_single_no_failover_detail untranslated exampleStatusId exampleReasonsId
           (newWorld None None None)
           [FailoverStatusResponse (Ok Single); HasRootPasswordResponse (Ok false)]).
  intros r Hr.
  apply elem_of_cons in Hr as [Hr|Hr]; [injection Hr as ->; reflexivity|].
  apply elem_of_cons in Hr as [Hr|Hr]; [discriminate Hr|].
  apply elem_of_nil in Hr. destruct Hr.
Defined.

Lemma generateToken_empty_witness :
  loginEffect (newWorld None None (Some "/storage")) <> LoginDead
  /\ truthy (Some "") = false
  /\ (let w' := run untranslated exampleStatusId exampleReasonsId
                  [TriggerHandleSuccessfulLogin; GenerateTokenResponse (Ok (Some ""))]
                  (newWorld None None (Some "/storage")) in
      log w' =
        [SnackbarDismiss;
         WsCall "auth.generate_token" [300%Z];
         SnackbarOpen "Error generating token, please try again." "Close" 4000 "bottom";
         WsUnsub "failover.status" exampleStatusId;
         WsUnsub "failover.disabled_reasons" exampleReasonsId;
         NavigateByUrl "/storage"]
      /\ ws_token w' = None
      /\ loginEffect w' = LoginIdle).
Proof.
  split; [discriminate|]. split; [reflexivity|].
  apply (generateToken_empty untranslated exampleStatusId exampleReasonsId
           (newWorld None None (Some "/storage")) (Some ""));
    [discriminate | reflexivity].
Defined.

Lemma init_without_token_witness :
  truthy (ws_token (newWorld None None None)) = false
  /\ initEffect (run untranslated exampleStatusId exampleReasonsId
                   [TriggerInit; HasRootPasswordResponse (Ok false);
                    FailoverStatusResponse (Ok Master);
                    GetIpsResponse (Failed (WsError "ENOTAUTHENTICATED"));
                    DisabledReasonsResponse (Ok [])]
                   (newWorld None None None)) = InitIdle
  /\ (let w' := run untranslated exampleStatusId exampleReasonsId
                  [TriggerInit; FailoverStatusResponse (Ok Master);
                   HasRootPasswordResponse (Ok false);
                   DisabledReasonsResponse (Ok []);
                   GetIpsResponse (Ok ["10.0.0.1"; "10.0.0.2"])]
                  (newWorld None None None) in
      isLoading (state w') = false /\ hasRootPassword (state w') = false).
Proof.
  pose proof (init_without_token untranslated exampleStatusId exampleReasonsId
                (newWorld None None None) eq_refl) as [Hends Hrest].
  split; [reflexivity|]. split.
  { specialize (Hends (Ok false) (Ok Master)
                  (Failed (WsError "ENOTAUTHENTICATED")) (Ok [])).
    apply Forall_cons in Hends as [Hfirst _]. exact Hfirst. }
  destruct (Hrest [FailoverStatusResponse (Ok Master);
                   HasRootPasswordResponse (Ok false);
                   DisabledReasonsResponse (Ok []);
                   GetIpsResponse (Ok ["10.0.0.1"; "10.0.0.2"])])
    as [Hloading Hroot].
  - repeat constructor.
  - reflexivity.
  - split; [exact Hloading|]. apply Hroot.
    + repeat constructor.
    + intros r Hr.
      apply elem_of_cons in Hr as [Hr|Hr]; [discriminate Hr|].
      apply elem_of_cons in Hr as [Hr|Hr]; [injection Hr as ->; reflexivity|].
      apply elem_of_cons in Hr as [Hr|Hr]; [discriminate Hr|].
      apply elem_of_cons in Hr as [Hr|Hr]; [discriminate Hr|].
      apply elem_of_nil in Hr. destruct Hr.
Defined.

Lemma handleSuccessfulLogin_unsub_topic_witness :
  loginEffect (newWorld None None None) <> LoginDead
  /\ (let w1 := subscribeToFailoverUpdates exampleStatusId exampleReasonsId
                  (newWorld None None None) in
      let w2 := run untranslated exampleStatusId exampleReasonsId
                  [TriggerHandleSuccessfulLogin;
                   GenerateTokenResponse (Ok (Some "fresh-token"))] w1 in
      log w2 =
        [WsSub "failover.status" exampleStatusId;
         WsSub "failover.disabled.reasons" exampleReasonsId;
         SnackbarDismiss;
         WsCall "auth.generate_token" [300%Z];
         WsUnsub "failover.status" exampleStatusId;
         WsUnsub "failover.disabled_reasons" exampleReasonsId;
         NavigateByUrl "/dashboard"]
      /\ subscribed "failover.disabled.reasons" exampleReasonsId w2 = true
      /\ failoverDisabledReasons
           (state (step untranslated exampleStatusId exampleReasonsId
                     (DisabledReasonsPush [ReasonCode "NO_PONG"]) w2))
         = Some [ReasonCode "NO_PONG"]).
Proof.
  split; [discriminate|].
  destruct (handleSuccessfulLogin_unsub_topic untranslated exampleStatusId
              exampleReasonsId (newWorld None None None) (Some "fresh-token"))
    as (Hsub & Hlog & Hstatus & Hreasons & Hpush).
  - discriminate.
  - split; [exact Hlog|]. split; [exact Hreasons|]. apply Hpush.
Defined.

Lemma handleSuccessfulLogin_failure_keeps_loading_witness :
  loginEffect (newWorld None None None) <> LoginDead
  /\ (let w' := run untranslated exampleStatusId exampleReasonsId
                  [TriggerHandleSuccessfulLogin;
                   GenerateTokenResponse (Failed (WsError "ENOTAUTHENTICATED"))]
                  (newWorld None None None) in
      isLoading (state w') = true
      /\ loginEffect w' = LoginDead
      /\ initEffect w' = InitIdle).
Proof.
  split; [discriminate|].
  destruct (handleSuccessfulLogin_failure_keeps_loading untranslated exampleStatusId
              exampleReasonsId (newWorld None None None) (WsError "ENOTAUTHENTICATED"))
    as (Hloading & Hdead & Hinit & _).
  - discriminate.
  - split; [exact Hloading|]. split; [exact Hdead|exact Hinit].
Defined.

(** The scenario of a connected master node: the bootstrap fills in the
    failover details, the pair is reported and login is allowed. *)
Example master_scenario :
  let w' := run untranslated exampleStatusId exampleReasonsId
              [TriggerInit; HasRootPasswordResponse (Ok true);
               FailoverStatusResponse (Ok Master);
               GetIpsResponse (Ok ["10.0.0.1"; "10.0.0.2"]);
               DisabledReasonsResponse (Ok [])]
              (newWorld None None None) in
  hasFailover (state w') = true
  /\ canLogin true (state w') = true
  /\ failoverIps (state w') = Some ["10.0.0.1"; "10.0.0.2"]
  /\ failoverDisabledReasons (state w') = Some []
  /\ isLoading (state w') = false
  /\ log w' =
       [WsCall "user.has_root_password" []; WsCall "failover.status" [];
        WsSub "failover.status" exampleStatusId;
        WsSub "failover.disabled.reasons" exampleReasonsId;
        WsCall "failover.get_ips" []; WsCall "failover.disabled.reasons" []].
Proof. vm_compute. repeat split. Qed.

(** An accepted token login hands over to [handleSuccessfulLogin], and the
    [next] callback of [init] then lowers the loading flag while the token
    request is still in flight. *)
Example accepted_token_login :
  let w' := step untranslated exampleStatusId exampleReasonsId
              (LoginTokenResponse (Ok true)) awaitingTokenLogin in
  loginEffect w' = LoginGenerating
  /\ initEffect w' = InitIdle
  /\ isLoading (state w') = false.
Proof. vm_compute. repeat split. Qed.


(** ** The further properties on a concrete store *)

Lemma bootstrap_loading_flag_witness :
  Forall bootstrapDelivery [FailoverStatusResponse (Ok Master); GetIpsResponse (Ok [])]
  /\ isLoading (state (run untranslated exampleStatusId exampleReasonsId
                         [TriggerInit; FailoverStatusResponse (Ok Master);
                          GetIpsResponse (Ok [])]
                         (newWorld (Some "cached-token") None None))) = true.
Proof.
  split; [repeat constructor|].
  apply (bootstrap_loading_flag untranslated exampleStatusId exampleReasonsId
           [FailoverStatusResponse (Ok Master); GetIpsResponse (Ok [])]
           (newWorld (Some "cached-token") None None)).
  repeat constructor.
Defined.


Lemma channel_writes_witness :
  ws_token (newWorld (Some "cached-token") None None) <> Some ""
  /\ ws_token (run untranslated exampleStatusId exampleReasonsId
                 [TriggerHandleSuccessfulLogin; GenerateTokenResponse (Ok (Some ""))]
                 (newWorld (Some "cached-token") None None)) <> Some "".
Proof.
  split; [discriminate|].
  apply (channel_writes untranslated exampleStatusId exampleReasonsId
           [TriggerHandleSuccessfulLogin; GenerateTokenResponse (Ok (Some ""))]
           (newWorld (Some "cached-token") None None)).
  discriminate.
Defined.

Lemma failoverStatus_push_witness :
  subscribed "failover.status" exampleStatusId afterMasterBootstrap = true
  /\ subscribed "failover.status" exampleStatusId (newWorld None None None) = false
  /\ canLogin true (state (step untranslated exampleStatusId exampleReasonsId
                             (FailoverStatusPush Backup) afterMasterBootstrap)) = false
  /\ failoverIps (state (step untranslated exampleStatusId exampleReasonsId
                           (FailoverStatusPush Backup) afterMasterBootstrap))
     = Some ["10.0.0.1"; "10.0.0.2"]
  /\ step untranslated exampleStatusId exampleReasonsId
       (FailoverStatusPush Backup) (newWorld None None None) = newWorld None None None.
Proof.
  assert (Hsub : subscribed "failover.status" exampleStatusId afterMasterBootstrap = true)
    by (vm_compute; reflexivity).
  assert (Hnot : subscribed "failover.status" exampleStatusId (newWorld None None None)
                 = false)
    by (vm_compute; reflexivity).
  destruct (failoverStatus_push untranslated exampleStatusId exampleReasonsId
              Backup afterMasterBootstrap) as [_ Hon].
  destruct (failoverStatus_push untranslated exampleStatusId exampleReasonsId
              Backup (newWorld None None None)) as [Hoff _].
  destruct (Hon Hsub) as (_ & Hips & _ & _ & _ & Hcan & _).
  split; [exact Hsub|]. split; [exact Hnot|]. split; [|split].
  - rewrite Hcan. reflexivity.
  - rewrite Hips. reflexivity.
  - apply Hoff. exact Hnot.
Defined.

Lemma failoverStatus_push_commutes_witness :
  answerBesidesStatus (HasRootPasswordResponse (Ok false))
  /\ step untranslated exampleStatusId exampleReasonsId (FailoverStatusPush Backup)
       (step untranslated exampleStatusId exampleReasonsId
          (HasRootPasswordResponse (Ok false)) afterMasterBootstrap)
     = step untranslated exampleStatusId exampleReasonsId
         (HasRootPasswordResponse (Ok false))
         (step untranslated exampleStatusId exampleReasonsId
            (FailoverStatusPush Backup) afterMasterBootstrap).
Proof.
  split; [exact I|].
  apply (failoverStatus_push_commutes untranslated exampleStatusId exampleReasonsId
           Backup (HasRootPasswordResponse (Ok false)) afterMasterBootstrap).
  exact I.
Defined.

Lemma bootstrap_order_independent_witness :
  let w' := run untranslated exampleStatusId exampleReasonsId
              [TriggerInit; FailoverStatusResponse (Ok Master);
               DisabledReasonsResponse (Ok [ReasonCode "NO_PONG"]);
               GetIpsResponse (Ok ["10.0.0.1"]);
               HasRootPasswordResponse (Ok false)]
              (newWorld None None None) in
  Master <> Single
  /\ failoverIps (state w') = Some ["10.0.0.1"]
  /\ failoverDisabledReasons (state w') = Some [ReasonCode "NO_PONG"].
Proof.
  cbv zeta. split; [discriminate|].
  pose proof (bootstrap_order_independent untranslated exampleStatusId exampleReasonsId
                (newWorld None None None) false Master ["10.0.0.1"]
                [ReasonCode "NO_PONG"]) as Hall.
  unfold bootstrapOrders in Hall.
  do 7 (apply Forall_cons in Hall as [_ Hall]).
  apply Forall_cons in Hall as [Hlast _].
  cbv zeta in Hlast. destruct Hlast as (_ & _ & Hinfo & _).
  apply Hinfo. discriminate.
Defined.


Lemma loginWithToken_accepted_witness :
  initEffect awaitingTokenLogin = InitLoginToken
  /\ loginEffect awaitingTokenLogin <> LoginDead
  /\ (let w' := step untranslated exampleStatusId exampleReasonsId
                  (LoginTokenResponse (Ok true)) awaitingTokenLogin in
      loginEffect w' = LoginGenerating /\ isLoading (state w') = false).
Proof.
  split; [reflexivity|]. split; [discriminate|].
  destruct (loginWithToken_accepted untranslated exampleStatusId exampleReasonsId
              awaitingTokenLogin) as (_ & Hgen & _ & _ & Hloading).
  - reflexivity.
  - discriminate.
  - split; [exact Hgen|exact Hloading].
Defined.

Lemma generateToken_fresh_witness :
  loginEffect (newWorld None (Some "/shares") None) <> LoginDead
  /\ truthy (Some "fresh-token") = true
  /\ (let w' := run untranslated exampleStatusId exampleReasonsId
                  [TriggerHandleSuccessfulLogin;
                   GenerateTokenResponse (Ok (Some "fresh-token"))]
                  (newWorld None (Some "/shares") None) in
      log w' =
        [SnackbarDismiss;
         WsCall "auth.generate_token" [300%Z];
         WsUnsub "failover.status" exampleStatusId;
         WsUnsub "failover.disabled_reasons" exampleReasonsId;
         NavigateByUrl "/shares"]
      /\ ws_token w' = Some "fresh-token").
Proof.
  split; [discriminate|]. split; [reflexivity|].
  destruct (generateToken_fresh untranslated exampleStatusId exampleReasonsId
              (newWorld None (Some "/shares") None) (Some "fresh-token"))
    as (Hlog & Htoken & _).
  - discriminate.
  - reflexivity.
  - split; [exact Hlog|exact Htoken].
Defined.

